(** * Query-identity cache: key derivation, cache accessor, pipeline interceptor

    A shallow embedding of
      - [api/cache/queryCache.js]             (createQueryCacheKey, getCachedQuery,
                                               setCachedQuery, clearQueryCache)
      - [api/server/middleware/queryCache.js] (queryCacheMiddleware,
                                               cacheResponseMiddleware)
    and the properties of the specification that were checked against it.

    Conventions of the embedding.
      - A JavaScript string is the list of its UTF-16 code units, each a [Z].
      - A JavaScript value is a term of [JsVal]; numbers are the integer-valued
        ones and NaN, which is all the code under study can tell apart
        (it only tests numbers for truthiness and prints them).
      - An [async] function is run to completion at its call: every [await]
        continues at once.  Interleavings with other requests are outside the
        embedding.
      - Effects (the store, the clock, the console, the request and response
        objects, the downstream handler) are threaded through a state and
        exception monad. *)

From Stdlib Require Import ZArith List String Ascii Lia DecimalString.
From stdpp Require Import base option list gmap.

Import ListNotations.
Local Open Scope Z_scope.

(* ===================================================================== *)
(** * JavaScript strings *)
(* ===================================================================== *)

Module JsString.

(** A string literal of the source, as code units (literals are ASCII). *)
Definition str (s : string) : list Z :=
  map (fun a => Z.of_N (N_of_ascii a)) (list_ascii_of_string s).

(** ECMAScript WhiteSpace and LineTerminator code points: what
    [String.prototype.trim] strips. *)
Definition is_white_space (c : Z) : bool :=
  (c =? 0x0009) || (c =? 0x000A) || (c =? 0x000B) || (c =? 0x000C) ||
  (c =? 0x000D) || (c =? 0x0020) || (c =? 0x00A0) || (c =? 0x1680) ||
  ((0x2000 <=? c) && (c <=? 0x200A)) ||
  (c =? 0x2028) || (c =? 0x2029) || (c =? 0x202F) || (c =? 0x205F) ||
  (c =? 0x3000) || (c =? 0xFEFF).

Fixpoint trimStart (s : list Z) : list Z :=
  match s with
  | c :: s' => if is_white_space c then trimStart s' else s
  | [] => []
  end.

Definition trimEnd (s : list Z) : list Z := rev (trimStart (rev s)).

(** [s.trim()] *)
Definition trim (s : list Z) : list Z := trimEnd (trimStart s).

(** [s.substring(a, b)] for non-negative integer arguments: the arguments are
    swapped when [a > b], and clamped to the length (by [take] and [drop]). *)
Definition substring (a b : nat) (s : list Z) : list Z :=
  take (Nat.max a b - Nat.min a b) (drop (Nat.min a b) s).

(** Decimal digits of an integer, as [Number.prototype.toString] prints an
    integer-valued number below 10^21. *)
Definition decimal (z : Z) : list Z := str (NilZero.string_of_int (Z.to_int z)).

Fixpoint join (sep : list Z) (parts : list (list Z)) : list Z :=
  match parts with
  | [] => []
  | [p] => p
  | p :: ps => p ++ sep ++ join sep ps
  end.

(** ** UTF-8 encoding of a string, as [Buffer.from(s, 'utf8')] and
    [hash.update(s)] do it: a surrogate pair is one four-byte sequence, a lone
    surrogate is replaced by U+FFFD. *)
Definition is_high_surrogate (c : Z) : bool := (0xD800 <=? c) && (c <=? 0xDBFF).
Definition is_low_surrogate (c : Z) : bool := (0xDC00 <=? c) && (c <=? 0xDFFF).

Definition utf8_code_point (cp : Z) : list Z :=
  if cp <? 0x80 then [cp]
  else if cp <? 0x800 then
    [Z.lor 0xC0 (Z.shiftr cp 6); Z.lor 0x80 (Z.land cp 0x3F)]
  else if cp <? 0x10000 then
    [Z.lor 0xE0 (Z.shiftr cp 12);
     Z.lor 0x80 (Z.land (Z.shiftr cp 6) 0x3F);
     Z.lor 0x80 (Z.land cp 0x3F)]
  else
    [Z.lor 0xF0 (Z.shiftr cp 18);
     Z.lor 0x80 (Z.land (Z.shiftr cp 12) 0x3F);
     Z.lor 0x80 (Z.land (Z.shiftr cp 6) 0x3F);
     Z.lor 0x80 (Z.land cp 0x3F)].

Definition replacement_character : Z := 0xFFFD.

Fixpoint utf8 (s : list Z) : list Z :=
  match s with
  | [] => []
  | c :: rest =>
      if is_high_surrogate c then
        match rest with
        | d :: rest' =>
            if is_low_surrogate d then
              utf8_code_point
                (0x10000 + Z.shiftl (c - 0xD800) 10 + (d - 0xDC00)) ++ utf8 rest'
            else utf8_code_point replacement_character ++ utf8 rest
        | [] => utf8_code_point replacement_character
        end
      else if is_low_surrogate c then
        utf8_code_point replacement_character ++ utf8 rest
      else utf8_code_point c ++ utf8 rest
  end.

End JsString.

Import JsString.

(* ===================================================================== *)
(** * SHA-256 (FIPS 180-4), as [crypto.createHash('sha256')] computes it *)
(* ===================================================================== *)

Module Sha256.

Definition w32 (x : Z) : Z := Z.land x 0xFFFFFFFF.
Definition add32 (x y : Z) : Z := w32 (x + y).
Definition rotr (n x : Z) : Z := Z.lor (Z.shiftr x n) (w32 (Z.shiftl x (32 - n))).
Definition not32 (x : Z) : Z := Z.lxor x 0xFFFFFFFF.

Definition Ch (x y z : Z) : Z := Z.lxor (Z.land x y) (Z.land (not32 x) z).
Definition Maj (x y z : Z) : Z :=
  Z.lxor (Z.lxor (Z.land x y) (Z.land x z)) (Z.land y z).
Definition Sigma0 (x : Z) : Z := Z.lxor (Z.lxor (rotr 2 x) (rotr 13 x)) (rotr 22 x).
Definition Sigma1 (x : Z) : Z := Z.lxor (Z.lxor (rotr 6 x) (rotr 11 x)) (rotr 25 x).
Definition sigma0 (x : Z) : Z := Z.lxor (Z.lxor (rotr 7 x) (rotr 18 x)) (Z.shiftr x 3).
Definition sigma1 (x : Z) : Z := Z.lxor (Z.lxor (rotr 17 x) (rotr 19 x)) (Z.shiftr x 10).

(** The primes up to [n]. *)
Definition is_prime (n : Z) : bool :=
  (2 <=? n) && forallb (fun d => negb (n mod d =? 0)) (seqZ 2 (Z.sqrt n - 1)).

Definition primes_upto (n : Z) : list Z := List.filter is_prime (seqZ 2 (n - 1)).

(** The integer [k]-th root of [n], found bit by bit from bit [bits - 1] down. *)
Fixpoint root_bits (k : Z) (bits : nat) (n acc : Z) : Z :=
  match bits with
  | O => acc
  | S b =>
      let candidate := acc + 2 ^ Z.of_nat b in
      root_bits k b n (if candidate ^ k <=? n then candidate else acc)
  end.

(** The first 32 bits of the fractional part of the [k]-th root of [p]. *)
Definition root_fraction (k p : Z) : Z :=
  w32 (root_bits k 36 (p * 2 ^ (32 * k)) 0).

(** The round constants: from the cube roots of the first 64 primes. *)
Definition K : list Z := map (root_fraction 3) (primes_upto 311).

(** The initial hash value: from the square roots of the first 8 primes. *)
Definition H0 : list Z := map (root_fraction 2) (primes_upto 19).

(** Big-endian bytes of [x], [n] of them. *)
Fixpoint be_bytes (n : nat) (x : Z) : list Z :=
  match n with
  | O => []
  | S n' => Z.land (Z.shiftr x (8 * Z.of_nat n')) 0xFF :: be_bytes n' x
  end.

(** The message followed by the bit 1, zeros up to 56 modulo 64 bytes, and the
    bit length on eight bytes. *)
Definition pad (msg : list Z) : list Z :=
  let len := Z.of_nat (length msg) in
  msg ++ [0x80] ++ replicate (Z.to_nat ((55 - len) mod 64)) 0 ++ be_bytes 8 (8 * len).

Fixpoint be_words (n : nat) (bytes : list Z) : list Z :=
  match n, bytes with
  | S n', b0 :: b1 :: b2 :: b3 :: rest =>
      Z.lor (Z.shiftl b0 24) (Z.lor (Z.shiftl b1 16) (Z.lor (Z.shiftl b2 8) b3))
      :: be_words n' rest
  | _, _ => []
  end.

(** One step of the message schedule; [ws] holds W[t-1], W[t-2], ... *)
Definition schedule_step (ws : list Z) : list Z :=
  add32 (add32 (sigma1 (nth 1 ws 0)) (nth 6 ws 0))
        (add32 (sigma0 (nth 14 ws 0)) (nth 15 ws 0)) :: ws.

Definition schedule (block : list Z) : list Z :=
  rev (Nat.iter 48 schedule_step (rev block)).

Definition round (st : list Z) (kw : Z * Z) : list Z :=
  match st with
  | [a; b; c; d; e; f; g; h] =>
      let t1 := add32 (add32 (add32 h (Sigma1 e)) (add32 (Ch e f g) (fst kw))) (snd kw) in
      let t2 := add32 (Sigma0 a) (Maj a b c) in
      [add32 t1 t2; a; b; c; add32 d t1; e; f; g]
  | _ => st
  end.

Definition compress (st : list Z) (block : list Z) : list Z :=
  zip_with add32 st (fold_left round (combine K (schedule block)) st).

Fixpoint blocks (n : nat) (ws : list Z) : list (list Z) :=
  match n with
  | O => []
  | S n' => take 16 ws :: blocks n' (drop 16 ws)
  end.

(** The digest, as eight 32-bit words. *)
Definition digest_words (msg : list Z) : list Z :=
  let padded := pad msg in
  let ws := be_words (length padded / 4) padded in
  fold_left compress (blocks (length ws / 16) ws) H0.

Definition hex_digit (d : Z) : Z := if d <? 10 then 48 + d else 87 + d.

Definition hex_byte (b : Z) : list Z :=
  [hex_digit (Z.shiftr b 4); hex_digit (Z.land b 0xF)].

(** [.digest('hex')]: 64 lowercase hexadecimal digits. *)
Definition digest_hex (msg : list Z) : list Z :=
  flat_map (fun w => flat_map hex_byte (be_bytes 4 w)) (digest_words msg).

End Sha256.

(* ===================================================================== *)
(** * JavaScript values *)
(* ===================================================================== *)

#[local] Set Warnings "-register-all".

Inductive JsVal : Type :=
| VUndefined
| VNull
| VBool (b : bool)
| VNum (n : Z)
| VNaN
| VStr (s : list Z)
| VArr (items : list JsVal)
| VObj (fields : list (list Z * JsVal)).

(** ToBoolean: the falsy values are undefined, null, false, 0, NaN and the
    empty string. *)
Definition truthy (v : JsVal) : bool :=
  match v with
  | VUndefined | VNull | VNaN => false
  | VBool b => b
  | VNum n => negb (n =? 0)
  | VStr s => match s with [] => false | _ => true end
  | VArr _ | VObj _ => true
  end.

(** [typeof v === 'string'] *)
Definition is_string (v : JsVal) : bool :=
  match v with VStr _ => true | _ => false end.

(** [a || b] *)
Definition or_else (a b : JsVal) : JsVal := if truthy a then a else b.

Fixpoint lookup_field (k : list Z) (fields : list (list Z * JsVal)) : JsVal :=
  match fields with
  | [] => VUndefined
  | (k', v) :: rest => if bool_decide (k = k') then v else lookup_field k rest
  end.

(** [v?.name], for the property names the code reads ("message", "query", "q",
    "id", "_id", "data", "result", "timestamp"): none of them is a property
    of a primitive, of an array or of [Object.prototype], so only an own field
    of an object yields a value. *)
Definition opt_prop (v : JsVal) (name : string) : JsVal :=
  match v with
  | VObj fields => lookup_field (str name) fields
  | _ => VUndefined
  end.

(** ToString, as a template literal applies it. *)
Fixpoint ToString (v : JsVal) : list Z :=
  match v with
  | VUndefined => str "undefined"
  | VNull => str "null"
  | VBool true => str "true"
  | VBool false => str "false"
  | VNum n => decimal n
  | VNaN => str "NaN"
  | VStr s => s
  | VArr items =>
      join (str ",")
        (map (fun x => match x with
                       | VUndefined | VNull => []
                       | _ => ToString x
                       end) items)
  | VObj _ => str "[object Object]"
  end.

(** A parameter with the default [''] : the default applies to [undefined]. *)
Definition default_empty (v : JsVal) : JsVal :=
  match v with VUndefined => VStr [] | _ => v end.

(* ===================================================================== *)
(** * Key Deriver: [createQueryCacheKey] *)
(* ===================================================================== *)

(** [`${userId}:${queryText}`] *)
Definition fullText (queryText userId : JsVal) : list Z :=
  ToString userId ++ str ":" ++ ToString queryText.

(** [crypto.createHash('sha256').update(fullText).digest('hex').substring(0, 32)] *)
Definition hashKey (text : list Z) : list Z :=
  substring 0 32 (Sha256.digest_hex (utf8 text)).

Definition createQueryCacheKey (queryText userId : JsVal) : list Z :=
  hashKey (fullText queryText (default_empty userId)).

(* ===================================================================== *)
(** * Effects: outcomes, the state and exception monad *)
(* ===================================================================== *)

(** A computation either completes with a value or throws a JavaScript value. *)
Inductive Outcome (A : Type) : Type :=
| Ok (a : A)
| Throw (e : JsVal).
Arguments Ok {A} a.
Arguments Throw {A} e.

Definition M (S A : Type) : Type := S -> Outcome A * S.

Definition ret {S A} (a : A) : M S A := fun s => (Ok a, s).

Definition bind {S A B} (m : M S A) (k : A -> M S B) : M S B :=
  fun s => match m s with
           | (Ok a, s') => k a s'
           | (Throw e, s') => (Throw e, s')
           end.

Definition throw {S A} (e : JsVal) : M S A := fun s => (Throw e, s).

(** [try { body } catch (error) { handler }] *)
Definition try_catch {S A} (body : M S A) (handler : JsVal -> M S A) : M S A :=
  fun s => match body s with
           | (Ok a, s') => (Ok a, s')
           | (Throw e, s') => handler e s'
           end.

Declare Scope js_scope.
Delimit Scope js_scope with js.
Notation "x <- c ;; k" := (bind c (fun x => k))
  (at level 20, c at level 99, k at level 200, only parsing) : js_scope.
Notation "c ;; k" := (bind c (fun _ => k))
  (at level 100, k at level 200, only parsing, right associativity) : js_scope.
Local Open Scope js_scope.

(** The error a call of a missing method raises. *)
Definition TypeError (message : string) : JsVal :=
  VObj [(str "name", VStr (str "TypeError")); (str "message", VStr (str message))].

(** [v.trim()] *)
Definition call_trim {S} (v : JsVal) : M S JsVal :=
  match v with
  | VStr s => ret (VStr (trim s))
  | _ => throw (TypeError "trim is not a function")
  end.

(** [v.substring(a, b)] *)
Definition call_substring {S} (v : JsVal) (a b : nat) : M S JsVal :=
  match v with
  | VStr s => ret (VStr (substring a b s))
  | _ => throw (TypeError "substring is not a function")
  end.

(* ===================================================================== *)
(** * The world of the accessor: store, clock, console *)
(* ===================================================================== *)

(** What the console received. *)
Inductive LogEntry : Type :=
| ConsoleLog (message : list Z)
| ConsoleError (message : list Z) (error : JsVal).

(** An interaction with the store module. *)
Inductive StoreOp : Type :=
| OpLookup (namespace : list Z)
| OpGet (key : list Z)
| OpSet (key : list Z) (value : JsVal) (ttl : Z)
| OpClear.

(** - [w_store]: the entries of the query-result namespace, each with the time
      at which it expires;
    - [w_now]: the clock, in milliseconds since the epoch;
    - [w_faults]: what the coming store interactions will do, in order:
      [Some e] raises [e], [None] (or no entry) goes through;
    - [w_ops]: the store interactions attempted so far, latest first;
    - [w_console]: the console output so far, latest first. *)
Record World : Type := mkWorld {
  w_store : gmap (list Z) (JsVal * Z);
  w_now : Z;
  w_faults : list (option JsVal);
  w_ops : list StoreOp;
  w_console : list LogEntry;
}.

Definition console_log (message : list Z) : M World unit :=
  fun w => (Ok tt, mkWorld (w_store w) (w_now w) (w_faults w) (w_ops w)
                           (ConsoleLog message :: w_console w)).

Definition console_error (message : list Z) (error : JsVal) : M World unit :=
  fun w => (Ok tt, mkWorld (w_store w) (w_now w) (w_faults w) (w_ops w)
                           (ConsoleError message error :: w_console w)).

(** The clock moves between operations, never inside one. *)
Definition advance (d : Z) (w : World) : World :=
  mkWorld (w_store w) (w_now w + d) (w_faults w) (w_ops w) (w_console w).

(** ** [new Date().toISOString()] *)
Module IsoDate.

Fixpoint digits (n : nat) (x : Z) : list Z :=
  match n with
  | O => []
  | S n' => digits n' (x / 10) ++ [48 + x mod 10]
  end.

(** Year, month and day of a day number counted from 1970-01-01. *)
Definition civil (days : Z) : Z * Z * Z :=
  let z := days + 719468 in
  let era := z / 146097 in
  let doe := z - era * 146097 in
  let yoe := (doe - doe / 1460 + doe / 36524 - doe / 146096) / 365 in
  let doy := doe - (365 * yoe + yoe / 4 - yoe / 100) in
  let mp := (5 * doy + 2) / 153 in
  let d := doy - (153 * mp + 2) / 5 + 1 in
  let m := if mp <? 10 then mp + 3 else mp - 9 in
  (yoe + era * 400 + (if m <=? 2 then 1 else 0), m, d).

Definition year_digits (y : Z) : list Z :=
  if (0 <=? y) && (y <=? 9999) then digits 4 y
  else (if y <? 0 then str "-" else str "+") ++ digits 6 (Z.abs y).

Definition toISOString (ms : Z) : list Z :=
  let '(y, m, d) := civil (ms / 86400000) in
  let t := ms mod 86400000 in
  year_digits y ++ str "-" ++ digits 2 m ++ str "-" ++ digits 2 d ++ str "T" ++
  digits 2 (t / 3600000) ++ str ":" ++ digits 2 (t / 60000 mod 60) ++ str ":" ++
  digits 2 (t / 1000 mod 60) ++ str "." ++ digits 3 (t mod 1000) ++ str "Z".

End IsoDate.

Definition new_Date_toISOString : M World JsVal :=
  fun w => (Ok (VStr (IsoDate.toISOString (w_now w))), w).

(* ===================================================================== *)
(** * The store collaborator *)
(* ===================================================================== *)

Module Store.

(** Every interaction with the store module is recorded, takes the next entry
    of the fault schedule, and raises when that entry says so. *)
Definition interact (op : StoreOp) : M World unit :=
  fun w =>
    let w' := mkWorld (w_store w) (w_now w) (tail (w_faults w)) (op :: w_ops w)
                      (w_console w) in
    match w_faults w with
    | Some e :: _ => (Throw e, w')
    | _ => (Ok tt, w')
    end.

(** Modelled from the spec: [getLogStores] of [api/cache/getLogStores.js],
    which is not among the sources.  It hands out the store of a logical
    namespace; the embedding keeps the one namespace the accessor asks for, so
    the handle carries no data. *)
Definition getLogStores (namespace : list Z) : M World unit :=
  interact (OpLookup namespace).

(** An entry is treated as absent once its time-to-live has passed. *)
Definition live (now : Z) (slot : option (JsVal * Z)) : JsVal :=
  match slot with
  | Some (v, expires) => if now <=? expires then v else VUndefined
  | None => VUndefined
  end.

(** Modelled from the spec: the store interface [get(key) -> value | absent],
    [set(key, value, ttlMillis)] and [clear()] of the TTL-aware key-value
    store, which is not among the sources. *)
Definition get (key : list Z) : M World JsVal :=
  interact (OpGet key) ;;
  (fun w => (Ok (live (w_now w) (w_store w !! key)), w)).

Definition set (key : list Z) (value : JsVal) (ttl : Z) : M World unit :=
  interact (OpSet key value ttl) ;;
  (fun w => (Ok tt, mkWorld (<[key := (value, w_now w + ttl)]> (w_store w))
                            (w_now w) (w_faults w) (w_ops w) (w_console w))).

Definition clear : M World unit :=
  interact OpClear ;;
  (fun w => (Ok tt, mkWorld ∅ (w_now w) (w_faults w) (w_ops w) (w_console w))).

End Store.

(** Modelled from the spec: [Time.TEN_MINUTES] of [librechat-data-provider],
    the default time-to-live of ten minutes, in milliseconds. *)
Definition TEN_MINUTES : Z := 600000.

(* ===================================================================== *)
(** * Query Cache Accessor *)
(* ===================================================================== *)

(** [`${prefix}"${queryText.substring(0, 50)}..."`] *)
Definition quoted_prefix (prefix : string) (queryText : JsVal) : M World (list Z) :=
  head50 <- call_substring queryText 0 50 ;;
  ret (str prefix ++ [34] ++ ToString head50 ++ str "..." ++ [34]).

Definition getCachedQuery (queryText userId : JsVal) : M World JsVal :=
  let userId := default_empty userId in
  if negb (truthy queryText) || negb (is_string queryText) then ret VNull
  else
    try_catch
      (queryCache <- Store.getLogStores (str "QUERY_RESULTS") ;;
       trimmed <- call_trim queryText ;;
       let cacheKey := createQueryCacheKey trimmed userId in
       result <- Store.get cacheKey ;;
       if truthy result then
         (message <- quoted_prefix "Cache HIT for query: " queryText ;;
          console_log message ;;
          ret result)
       else
         (message <- quoted_prefix "Cache MISS for query: " queryText ;;
          console_log message ;;
          ret VNull))
      (fun error =>
         console_error (str "Error getting cached query:") error ;;
         ret VNull).

(** The entry [setCachedQuery] stores. *)
Definition Entry (result queryText timestamp userId : JsVal) : JsVal :=
  VObj [(str "result", result); (str "query", queryText);
        (str "timestamp", timestamp); (str "userId", userId)].

Definition is_undefined (v : JsVal) : bool :=
  match v with VUndefined => true | _ => false end.

Definition setCachedQuery (queryText result userId : JsVal) (ttl : Z)
  : M World JsVal :=
  let userId := default_empty userId in
  if negb (truthy queryText) || negb (is_string queryText) || is_undefined result
  then ret (VBool false)
  else
    try_catch
      (queryCache <- Store.getLogStores (str "QUERY_RESULTS") ;;
       trimmed <- call_trim queryText ;;
       let cacheKey := createQueryCacheKey trimmed userId in
       timestamp <- new_Date_toISOString ;;
       Store.set cacheKey (Entry result queryText timestamp userId) ttl ;;
       message <- quoted_prefix "Cached query result for: " queryText ;;
       console_log message ;;
       ret (VBool true))
      (fun error =>
         console_error (str "Error caching query:") error ;;
         ret (VBool false)).

Definition clearQueryCache : M World JsVal :=
  try_catch
    (queryCache <- Store.getLogStores (str "QUERY_RESULTS") ;;
     Store.clear ;;
     console_log (str "Query cache cleared") ;;
     ret (VBool true))
    (fun error =>
       console_error (str "Error clearing query cache:") error ;;
       ret (VBool false)).

(* ===================================================================== *)
(** * Pipeline Interceptor *)
(* ===================================================================== *)

(** The request object: what the pipeline puts on it ([body], [query],
    [user]) and what the interceptor attaches ([userQuery], [userId]). *)
Record Req : Type := mkReq {
  req_body : JsVal;
  req_query : JsVal;
  req_user : JsVal;
  req_userQuery : JsVal;
  req_userId : JsVal;
}.

(** The [json] method of the response object: the one of the pipeline, or the
    function [cacheResponseMiddleware] replaced it with, which keeps the
    previous method as [originalJson]. *)
Inductive JsonMethod : Type :=
| NativeJson
| CachingJson (originalJson : JsonMethod).

(** The response object: the status code, the [json] method, and the
    responses emitted so far (status and body), latest first. *)
Record Res : Type := mkRes {
  res_statusCode : Z;
  res_json : JsonMethod;
  res_sent : list (Z * JsVal);
}.

(** One request/response cycle: the request and response objects, which the
    interceptor, the replaced [json] method and the downstream handler share,
    and the world of the accessor. *)
Record Cycle : Type := mkCycle {
  c_req : Req;
  c_res : Res;
  c_world : World;
}.

(** An accessor operation, run in the world of the cycle. *)
Definition in_world {A} (m : M World A) : M Cycle A :=
  fun c => let (o, w) := m (c_world c) in (o, mkCycle (c_req c) (c_res c) w).

Definition the_req : M Cycle Req := fun c => (Ok (c_req c), c).
Definition the_res : M Cycle Res := fun c => (Ok (c_res c), c).

(** [req.userQuery = v] and [req.userId = v] *)
Definition set_userQuery (v : JsVal) : M Cycle unit :=
  fun c => let r := c_req c in
    (Ok tt, mkCycle (mkReq (req_body r) (req_query r) (req_user r) v (req_userId r))
                    (c_res c) (c_world c)).

Definition set_userId (v : JsVal) : M Cycle unit :=
  fun c => let r := c_req c in
    (Ok tt, mkCycle (mkReq (req_body r) (req_query r) (req_user r) (req_userQuery r) v)
                    (c_res c) (c_world c)).

(** [res.status(code)] *)
Definition res_status (code : Z) : M Cycle unit :=
  fun c => let r := c_res c in
    (Ok tt, mkCycle (c_req c) (mkRes code (res_json r) (res_sent r)) (c_world c)).

(** [res.json = method] *)
Definition set_json (method : JsonMethod) : M Cycle unit :=
  fun c => let r := c_res c in
    (Ok tt, mkCycle (c_req c) (mkRes (res_statusCode r) method (res_sent r)) (c_world c)).

(** The [json] method of the pipeline: the body leaves with the current
    status code. *)
Definition native_json (body : JsVal) : M Cycle unit :=
  fun c => let r := c_res c in
    (Ok tt, mkCycle (c_req c)
              (mkRes (res_statusCode r) (res_json r) ((res_statusCode r, body) :: res_sent r))
              (c_world c)).

(** The function [cacheResponseMiddleware] installs as [res.json], given the
    method it replaced. *)
Definition caching_json (originalJson : JsVal -> M Cycle unit) (body : JsVal)
  : M Cycle unit :=
  res <- the_res ;;
  (if (res_statusCode res =? 200) && truthy (opt_prop body "data") then
     req <- the_req ;;
     try_catch
       (in_world (setCachedQuery (req_userQuery req) (opt_prop body "data")
                    (or_else (req_userId req) (VStr [])) TEN_MINUTES) ;;
        req <- the_req ;;
        in_world (console_log
          (str "Cached response for query: " ++ [34] ++
           ToString (req_userQuery req) ++ [34])))
       (fun error => in_world (console_error (str "Error caching response:") error))
   else ret tt) ;;
  originalJson body.

Fixpoint call_json (method : JsonMethod) (body : JsVal) : M Cycle unit :=
  match method with
  | NativeJson => native_json body
  | CachingJson originalJson => caching_json (call_json originalJson) body
  end.

(** [res.json(body)] *)
Definition res_json_call (body : JsVal) : M Cycle unit :=
  res <- the_res ;; call_json (res_json res) body.

(** The body of the response served from the cache. *)
Definition cached_response (cachedResult : JsVal) : JsVal :=
  VObj [(str "success", VBool true);
        (str "data", opt_prop cachedResult "result");
        (str "cached", VBool true);
        (str "timestamp", opt_prop cachedResult "timestamp")].

(** [req.body?.message || req.body?.query || req.query?.q] *)
Definition extract_userQuery (req : Req) : JsVal :=
  or_else (or_else (opt_prop (req_body req) "message") (opt_prop (req_body req) "query"))
          (opt_prop (req_query req) "q").

(** [req.user?.id || req.user?._id || ''] *)
Definition extract_userId (req : Req) : JsVal :=
  or_else (or_else (opt_prop (req_user req) "id") (opt_prop (req_user req) "_id"))
          (VStr []).

(** The values the two functions return are dropped by the pipeline; the
    embedding keeps their effects. *)
Definition queryCacheMiddleware (next : M Cycle unit) : M Cycle unit :=
  req <- the_req ;;
  let userQuery := extract_userQuery req in
  let userId := extract_userId req in
  if negb (truthy userQuery) || negb (is_string userQuery) then next
  else
    try_catch
      (cachedResult <- in_world (getCachedQuery userQuery userId) ;;
       if truthy cachedResult then
         in_world (console_log
           (str "Returning cached result for query: " ++ [34] ++
            ToString userQuery ++ [34])) ;;
         res_status 200 ;;
         res_json_call (cached_response cachedResult)
       else
         set_userQuery userQuery ;;
         set_userId userId ;;
         next)
      (fun error =>
         in_world (console_error (str "Error in query cache middleware:") error) ;;
         next).

Definition cacheResponseMiddleware (next : M Cycle unit) : M Cycle unit :=
  req <- the_req ;;
  if negb (truthy (req_userQuery req)) then next
  else
    res <- the_res ;;
    let originalJson := res_json res in
    set_json (CachingJson originalJson) ;;
    next.

(* ===================================================================== *)
(** * Vocabulary of the statements *)
(* ===================================================================== *)


(** The next [n] store interactions go through. *)
Definition healthy (n : nat) (w : World) : Prop :=
  Forall (fun f => f = None) (take n (w_faults w)).

(** The lookup of the store, or the store operation that follows it, raises. *)
Definition store_raises (w : World) : Prop :=
  ∃ e fs, w_faults w = Some e :: fs ∨ w_faults w = None :: Some e :: fs.

(** A non-empty string: the query texts the accessor and the interceptor
    take up. *)
Definition usable (v : JsVal) : bool := truthy v && is_string v.



(** A success status of HTTP. *)
Definition success_status (code : Z) : Prop := 200 <= code <= 299.

(** A downstream handler that sets a status and emits a body. *)
Definition respond (code : Z) (body : JsVal) : M Cycle unit :=
  res_status code ;; res_json_call body.

(** The store key of an identity: the scope and the trimmed query text. *)
Definition identity_key (q : list Z) (userId : JsVal) : list Z :=
  createQueryCacheKey (VStr (trim q)) userId.

(* ===================================================================== *)
(** * Sample worlds and values *)
(* ===================================================================== *)

(** An empty store that answers, on 2023-11-14. *)
Definition w0 : World := mkWorld ∅ 1700000000000 [] [] [].

Definition store_error : JsVal :=
  VObj [(str "name", VStr (str "Error")); (str "message", VStr (str "ECONNREFUSED"))].

(** The same, with a store whose next interaction raises. *)
Definition w_down : World := mkWorld ∅ 1700000000000 [Some store_error] [] [].

(** [{rows: [1, 2, 3]}] *)
Definition sample_rows : JsVal := VObj [(str "rows", VArr [VNum 1; VNum 2; VNum 3])].

(** The store interactions of [w'] are those of [w] and some more. *)
Definition ops_extend (w w' : World) : Prop :=
  ∃ new, w_ops w' = new ++ w_ops w.

(** The world after the write-back of the replaced [json] method. *)
Definition write_back (req : Req) (body : JsVal) (w : World) : World :=
  let w1 := snd (setCachedQuery (req_userQuery req) (opt_prop body "data")
                   (or_else (req_userId req) (VStr [])) TEN_MINUTES w) in
  mkWorld (w_store w1) (w_now w1) (w_faults w1) (w_ops w1)
    (ConsoleLog (str "Cached response for query: " ++ [34] ++
                 ToString (req_userQuery req) ++ [34]) :: w_console w1).


(** A request with the given body and query string, from user "userA". *)
Definition request (body query : JsVal) : Req :=
  mkReq body query (VObj [(str "id", VStr (str "userA"))]) VUndefined VUndefined.

(** A response object nothing was done to. *)
Definition fresh_res : Res := mkRes 200 NativeJson [].

(** [{message: "Show balances by branch"}] *)
Definition sample_body : JsVal :=
  VObj [(str "message", VStr (str "Show balances by branch"))].

(** The world after user "userA" had the sample query cached. *)
Definition w_cached : World :=
  snd (setCachedQuery (VStr (str "Show balances by branch")) sample_rows
         (VStr (str "userA")) TEN_MINUTES w0).

(** A request that missed: the marker is attached. *)
Definition marked_request : Req :=
  mkReq sample_body VUndefined (VObj [(str "id", VStr (str "userA"))])
        (VStr (str "Show balances by branch")) (VStr (str "userA")).

(* ===================================================================== *)
(** * Further vocabulary: key format, whitespace, the route *)
(* ===================================================================== *)


(** A string of white space only. *)
Definition blank (s : list Z) : Prop :=
  Forall (fun c => is_white_space c = true) s.

(** The route as the usage notes set it up:
    [router.get(path, queryCacheMiddleware, cacheResponseMiddleware, handler)].
    The [next] of each interceptor is the rest of the chain.  The statements
    about the route take handlers that respond, or do not run the handler at
    all: where a thrown exception of a later layer ends up is the business of
    the pipeline and is not stated here. *)
Definition route (handler : M Cycle unit) : M Cycle unit :=
  queryCacheMiddleware (cacheResponseMiddleware handler).

(** The cycle with the marker attached and the world replaced. *)
Definition with_marker (c : Cycle) (userQuery userId : JsVal) (w : World) : Cycle :=
  mkCycle (mkReq (req_body (c_req c)) (req_query (c_req c)) (req_user (c_req c))
                 userQuery userId)
          (c_res c) w.

(** The console entry of the [catch] block of [queryCacheMiddleware]. *)
Definition log_middleware_error (error : JsVal) (c : Cycle) : Cycle :=
  mkCycle (c_req c) (c_res c)
    (snd (console_error (str "Error in query cache middleware:") error (c_world c))).

(** The store interactions of a read. *)
Definition read_op (op : StoreOp) : Prop :=
  match op with
  | OpLookup _ | OpGet _ => True
  | OpSet _ _ _ | OpClear => False
  end.



(** A world whose store raises on the next two interactions. *)
Definition w_outage : World :=
  mkWorld (w_store w_cached) 1700000001000 [Some store_error; Some store_error] [] [].

(* ===================================================================== *)
(** * Checks of the embedding on known values *)
(* ===================================================================== *)

Example sha_constants :
  length Sha256.K = 64%nat ∧ head Sha256.K = Some 0x428a2f98 ∧
  last Sha256.K = Some 0xc67178f2 ∧
  length Sha256.H0 = 8%nat ∧ head Sha256.H0 = Some 0x6a09e667 ∧
  last Sha256.H0 = Some 0x5be0cd19.
Proof. vm_compute. repeat split. Qed.

Example sha_abc :
  Sha256.digest_hex (utf8 (str "abc")) =
  str "ba7816bf8f01cfea414140de5dae2223b00361a396177a9cb410ff61f20015ad".
Proof. vm_compute. reflexivity. Qed.

Example sha_two_blocks :
  Sha256.digest_hex
    (utf8 (str "abcdbcdecdefdefgefghfghighijhijkijkljklmklmnlmnomnopnopq")) =
  str "248d6a61d20638b8e5c026930c3e6039a33ce45964ff2167f6ecedd419db06c1".
Proof. vm_compute. reflexivity. Qed.

Example utf8_beyond_ascii :
  hashKey [0xE9; 0x20AC; 0xD83D; 0xDE00] = str "df9226927fd572c1ee66eec85de1bb13".
Proof. vm_compute. reflexivity. Qed.

Example key_userA_q :
  createQueryCacheKey (VStr (str "q")) (VStr (str "userA")) =
  str "b6d209d0b666bb4cf3adf46024498664".
Proof. vm_compute. reflexivity. Qed.

Example iso_epoch : IsoDate.toISOString 0 = str "1970-01-01T00:00:00.000Z".
Proof. vm_compute. reflexivity. Qed.

Example iso_2023 : IsoDate.toISOString 1700000000000 = str "2023-11-14T22:13:20.000Z".
Proof. vm_compute. reflexivity. Qed.

Example iso_leap : IsoDate.toISOString 1709164800123 = str "2024-02-29T00:00:00.123Z".
Proof. vm_compute. reflexivity. Qed.

Example iso_before_epoch : IsoDate.toISOString (-1) = str "1969-12-31T23:59:59.999Z".
Proof. vm_compute. reflexivity. Qed.

(* ===================================================================== *)
(** * Properties of the Key Deriver *)
(* ===================================================================== *)

Section KeyDeriver.

Lemma createQueryCacheKey_strings (q s : list Z) :
  createQueryCacheKey (VStr q) (VStr s) = hashKey (s ++ 58 :: q).
Proof. reflexivity. Qed.



End KeyDeriver.






(* ===================================================================== *)
(** * Properties of the Query Cache Accessor *)
(* ===================================================================== *)

#[local] Arguments createQueryCacheKey : simpl never.
#[local] Arguments IsoDate.toISOString : simpl never.
#[local] Arguments trim : simpl never.
#[local] Arguments substring : simpl never.
#[local] Arguments str : simpl never.
#[local] Arguments ToString : simpl never.

Ltac unfold_accessor :=
  unfold getCachedQuery, setCachedQuery, clearQueryCache, quoted_prefix,
    call_trim, call_substring, new_Date_toISOString,
    Store.getLogStores, Store.get, Store.set, Store.clear, Store.interact,
    console_log, console_error, try_catch, bind, ret, throw.

(** Case analysis on what the next two store interactions will do. *)
Ltac faults_cases w :=
  let st := fresh "st" in let now := fresh "now" in let fs := fresh "fs" in
  let ops := fresh "ops" in let con := fresh "con" in
  destruct w as [st now fs ops con];
  destruct fs as [|[?e|] [|[?e|] fs]]; simpl in *.

Section Accessor.

Lemma default_empty_idem (u : JsVal) : default_empty (default_empty u) = default_empty u.
Proof. by destruct u. Qed.

Lemma createQueryCacheKey_default (q u : JsVal) :
  createQueryCacheKey q (default_empty u) = createQueryCacheKey q u.
Proof. unfold createQueryCacheKey. by rewrite default_empty_idem. Qed.

Lemma usable_inv (v : JsVal) :
  usable v = true → ∃ c s, v = VStr (c :: s).
Proof.
  unfold usable. destruct v as [| |b|n| |[|c s]| |]; simpl; intros H;
    try discriminate H; eauto; rewrite andb_false_r in H; discriminate H.
Qed.

Lemma not_usable_guard (v : JsVal) :
  usable v = false → negb (truthy v) || negb (is_string v) = true.
Proof. unfold usable. destruct (truthy v), (is_string v); simpl; congruence. Qed.

(** What [getCachedQuery] does on a non-empty string, by the fate of its two
    store interactions. *)
Lemma getCachedQuery_run (c : Z) (s : list Z) (userId : JsVal) (w : World) :
  let q := c :: s in
  let key := identity_key q userId in
  let ops1 := OpLookup (str "QUERY_RESULTS") :: w_ops w in
  let ops2 := OpGet key :: ops1 in
  let shown := [34] ++ substring 0 50 q ++ str "..." ++ [34] in
  getCachedQuery (VStr q) userId w =
  match w_faults w with
  | Some e :: fs =>
      (Ok VNull, mkWorld (w_store w) (w_now w) fs ops1
         (ConsoleError (str "Error getting cached query:") e :: w_console w))
  | _ :: Some e :: fs =>
      (Ok VNull, mkWorld (w_store w) (w_now w) fs ops2
         (ConsoleError (str "Error getting cached query:") e :: w_console w))
  | fs =>
      let result := Store.live (w_now w) (w_store w !! key) in
      if truthy result then
        (Ok result, mkWorld (w_store w) (w_now w) (drop 2 fs) ops2
           (ConsoleLog (str "Cache HIT for query: " ++ shown) :: w_console w))
      else
        (Ok VNull, mkWorld (w_store w) (w_now w) (drop 2 fs) ops2
           (ConsoleLog (str "Cache MISS for query: " ++ shown) :: w_console w))
  end.
Proof.
  intros q key ops1 ops2 shown. subst q key ops1 ops2 shown.
  unfold identity_key. rewrite <- (createQueryCacheKey_default _ userId).
  unfold_accessor. faults_cases w; try reflexivity;
    match goal with |- context [truthy ?r] => destruct (truthy r) end; reflexivity.
Qed.

(** What [setCachedQuery] does on a non-empty string and a defined result. *)
Lemma setCachedQuery_run (c : Z) (s : list Z) (result userId : JsVal) (ttl : Z)
    (w : World) :
  let q := c :: s in
  let key := identity_key q userId in
  let entry := Entry result (VStr q) (VStr (IsoDate.toISOString (w_now w)))
                 (default_empty userId) in
  let ops1 := OpLookup (str "QUERY_RESULTS") :: w_ops w in
  let ops2 := OpSet key entry ttl :: ops1 in
  is_undefined result = false →
  setCachedQuery (VStr q) result userId ttl w =
  match w_faults w with
  | Some e :: fs =>
      (Ok (VBool false), mkWorld (w_store w) (w_now w) fs ops1
         (ConsoleError (str "Error caching query:") e :: w_console w))
  | _ :: Some e :: fs =>
      (Ok (VBool false), mkWorld (w_store w) (w_now w) fs ops2
         (ConsoleError (str "Error caching query:") e :: w_console w))
  | fs =>
      (Ok (VBool true),
       mkWorld (<[key := (entry, w_now w + ttl)]> (w_store w)) (w_now w) (drop 2 fs) ops2
         (ConsoleLog (str "Cached query result for: " ++
                      [34] ++ substring 0 50 q ++ str "..." ++ [34]) :: w_console w))
  end.
Proof.
  intros q key entry ops1 ops2 Hr. subst q key entry ops1 ops2.
  unfold identity_key. rewrite <- (createQueryCacheKey_default _ userId).
  unfold_accessor. simpl. rewrite Hr. faults_cases w; reflexivity.
Qed.

Lemma clearQueryCache_run (w : World) :
  let ops1 := OpLookup (str "QUERY_RESULTS") :: w_ops w in
  clearQueryCache w =
  match w_faults w with
  | Some e :: fs =>
      (Ok (VBool false), mkWorld (w_store w) (w_now w) fs ops1
         (ConsoleError (str "Error clearing query cache:") e :: w_console w))
  | _ :: Some e :: fs =>
      (Ok (VBool false), mkWorld (w_store w) (w_now w) fs (OpClear :: ops1)
         (ConsoleError (str "Error clearing query cache:") e :: w_console w))
  | fs =>
      (Ok (VBool true), mkWorld ∅ (w_now w) (drop 2 fs) (OpClear :: ops1)
         (ConsoleLog (str "Query cache cleared") :: w_console w))
  end.
Proof. unfold_accessor. faults_cases w; reflexivity. Qed.

(** The guards: nothing happens on a query text that is not a non-empty
    string, nor on an undefined result. *)
Lemma getCachedQuery_guard (queryText userId : JsVal) (w : World) :
  usable queryText = false → getCachedQuery queryText userId w = (Ok VNull, w).
Proof.
  intros H. unfold getCachedQuery. by rewrite (not_usable_guard _ H).
Qed.

Lemma setCachedQuery_guard (queryText result userId : JsVal) (ttl : Z) (w : World) :
  usable queryText = false ∨ result = VUndefined →
  setCachedQuery queryText result userId ttl w = (Ok (VBool false), w).
Proof.
  intros [H | ->]; unfold setCachedQuery.
  - by rewrite (not_usable_guard _ H).
  - simpl. by rewrite orb_true_r.
Qed.


(** No accessor operation throws. *)
Lemma getCachedQuery_total (queryText userId : JsVal) (w : World) :
  ∃ v w', getCachedQuery queryText userId w = (Ok v, w').
Proof.
  destruct (usable queryText) eqn:U.
  - destruct (usable_inv _ U) as (c & s & ->). rewrite getCachedQuery_run.
    destruct w as [st now fs ops con]; simpl.
    destruct fs as [|[e|] [|[e'|] fs]]; simpl; eauto;
      match goal with |- context [truthy ?r] => destruct (truthy r) end; eauto.
  - rewrite getCachedQuery_guard by done. eauto.
Qed.

Lemma setCachedQuery_total (queryText result userId : JsVal) (ttl : Z) (w : World) :
  ∃ b w', setCachedQuery queryText result userId ttl w = (Ok (VBool b), w').
Proof.
  destruct (usable queryText) eqn:U; [destruct (is_undefined result) eqn:R|].
  - rewrite setCachedQuery_guard; eauto. right. by destruct result.
  - destruct (usable_inv _ U) as (c & s & ->). rewrite setCachedQuery_run by done.
    destruct w as [st now fs ops con]; simpl.
    destruct fs as [|[e|] [|[e'|] fs]]; simpl; eauto.
  - rewrite setCachedQuery_guard; eauto.
Qed.

Lemma clearQueryCache_total (w : World) :
  ∃ b w', clearQueryCache w = (Ok (VBool b), w').
Proof.
  rewrite clearQueryCache_run. destruct w as [st now fs ops con]; simpl.
  destruct fs as [|[e|] [|[e'|] fs]]; simpl; eauto.
Qed.

(** A successful write: what was accepted and what the store holds after. *)
Lemma setCachedQuery_true_inv (queryText result userId : JsVal) (ttl : Z)
    (w w1 : World) :
  setCachedQuery queryText result userId ttl w = (Ok (VBool true), w1) →
  ∃ c s, queryText = VStr (c :: s) ∧ result ≠ VUndefined ∧
    w_store w1 = <[identity_key (c :: s) userId :=
                     (Entry result queryText (VStr (IsoDate.toISOString (w_now w)))
                        (default_empty userId), w_now w + ttl)]> (w_store w) ∧
    w_now w1 = w_now w ∧ w_faults w1 = drop 2 (w_faults w).
Proof.
  intros H. destruct (usable queryText) eqn:U.
  - destruct (usable_inv _ U) as (c & s & ->).
    destruct (is_undefined result) eqn:R.
    + rewrite setCachedQuery_guard in H; [discriminate|]. right. by destruct result.
    + exists c, s. rewrite setCachedQuery_run in H by done.
      assert (result ≠ VUndefined) by (intros ->; discriminate).
      destruct w as [st now fs ops con]; simpl in *.
      destruct fs as [|[e|] [|[e'|] fs]]; simpl in *; inversion H; subst; simpl; auto.
  - rewrite setCachedQuery_guard in H; [discriminate|]. by left.
Qed.

(** A live, truthy value under the key of the identity, and a store that
    answers: the lookup is a hit and returns that value. *)
Lemma getCachedQuery_hit (c : Z) (s : list Z) (userId value : JsVal) (expires : Z)
    (w : World) :
  w_store w !! identity_key (c :: s) userId = Some (value, expires) →
  w_now w <= expires → truthy value = true → healthy 2 w →
  ∃ w', getCachedQuery (VStr (c :: s)) userId w = (Ok value, w') ∧
        w_store w' = w_store w ∧ w_now w' = w_now w.
Proof.
  intros Hst Hnow Ht Hh. rewrite getCachedQuery_run. rewrite Hst. simpl.
  assert ((w_now w <=? expires) = true) as -> by lia. rewrite Ht.
  unfold healthy in Hh.
  destruct (w_faults w) as [|[e|] [|[e'|] fs]]; simpl in *;
    try (eexists; split; [reflexivity | split; reflexivity]);
    exfalso;
    repeat match goal with
           | H : Forall _ (_ :: _) |- _ => inversion H; clear H; subst
           end; congruence.
Qed.

(** Nothing under the key of the identity: the lookup returns null. *)
Lemma getCachedQuery_absent (c : Z) (s : list Z) (userId : JsVal) (w : World) :
  w_store w !! identity_key (c :: s) userId = None →
  fst (getCachedQuery (VStr (c :: s)) userId w) = Ok VNull.
Proof.
  intros Hst. rewrite getCachedQuery_run. rewrite Hst. simpl.
  destruct (w_faults w) as [|[e|] [|[e'|] fs]]; reflexivity.
Qed.

Lemma healthy_advance (n : nat) (d : Z) (w : World) :
  healthy n (advance d w) ↔ healthy n w.
Proof. reflexivity. Qed.


End Accessor.

(** C7.  On a query text that is empty, absent or not a string,
    [getCachedQuery] returns null and [setCachedQuery] returns false, and on
    an undefined result [setCachedQuery] returns false whatever the query
    text; in each case the world is left as it was: no store interaction is
    attempted, nothing is thrown. *)
Theorem invalid_input_rejected (queryText result userId : JsVal) (ttl : Z) (w : World) :
  queryText = VStr [] ∨ queryText = VUndefined ∨ queryText = VNull
  ∨ is_string queryText = false →
  getCachedQuery queryText userId w = (Ok VNull, w) ∧
  setCachedQuery queryText result userId ttl w = (Ok (VBool false), w) ∧
  (∀ anyText, setCachedQuery anyText VUndefined userId ttl w = (Ok (VBool false), w)).
Proof.
  intros H.
  assert (U : usable queryText = false).
  { unfold usable. destruct H as [-> | [-> | [-> | H]]]; try reflexivity.
    rewrite H. apply andb_false_r. }
  split; [|split].
  - by apply getCachedQuery_guard.
  - apply setCachedQuery_guard. by left.
  - intros anyText. apply setCachedQuery_guard. by right.
Qed.

Lemma invalid_input_rejected_witness :
  getCachedQuery (VNum 42) (VStr (str "userA")) w0 = (Ok VNull, w0) ∧
  setCachedQuery (VNum 42) (VNum 1) (VStr (str "userA")) TEN_MINUTES w0
  = (Ok (VBool false), w0) ∧
  (∀ anyText, setCachedQuery anyText VUndefined (VStr (str "userA")) TEN_MINUTES w0
              = (Ok (VBool false), w0)).
Proof.
  apply invalid_input_rejected. right. right. right. reflexivity.
Defined.

(** C3.  No accessor operation propagates an exception, and when the store
    lookup or the store operation raises, [getCachedQuery] returns null,
    [setCachedQuery] returns false and [clearQueryCache] returns false. *)
Theorem store_failure_contained (queryText result userId : JsVal) (ttl : Z) (w : World) :
  (∃ v w', getCachedQuery queryText userId w = (Ok v, w')) ∧
  (∃ b w', setCachedQuery queryText result userId ttl w = (Ok (VBool b), w')) ∧
  (∃ b w', clearQueryCache w = (Ok (VBool b), w')) ∧
  (store_raises w →
   fst (getCachedQuery queryText userId w) = Ok VNull ∧
   fst (setCachedQuery queryText result userId ttl w) = Ok (VBool false) ∧
   fst (clearQueryCache w) = Ok (VBool false)).
Proof.
  split; [apply getCachedQuery_total|].
  split; [apply setCachedQuery_total|].
  split; [apply clearQueryCache_total|].
  intros (e & fs & Hf). split; [|split].
  - destruct (usable queryText) eqn:U.
    + destruct (usable_inv _ U) as (c & s & ->). rewrite getCachedQuery_run.
      destruct Hf as [-> | ->]; reflexivity.
    + by rewrite getCachedQuery_guard.
  - destruct (usable queryText) eqn:U; [destruct (is_undefined result) eqn:R|].
    + rewrite setCachedQuery_guard; [done|]. right. by destruct result.
    + destruct (usable_inv _ U) as (c & s & ->). rewrite setCachedQuery_run by done.
      destruct Hf as [-> | ->]; reflexivity.
    + rewrite setCachedQuery_guard; [done|]. by left.
  - rewrite clearQueryCache_run. destruct Hf as [-> | ->]; reflexivity.
Qed.

Lemma store_failure_contained_witness :
  fst (getCachedQuery (VStr (str "q")) VUndefined w_down) = Ok VNull ∧
  fst (setCachedQuery (VStr (str "q")) (VNum 1) VUndefined TEN_MINUTES w_down)
  = Ok (VBool false) ∧
  fst (clearQueryCache w_down) = Ok (VBool false).
Proof.
  destruct (store_failure_contained (VStr (str "q")) (VNum 1) VUndefined
              TEN_MINUTES w_down) as (_ & _ & _ & H).
  apply H. exists store_error, []. left. reflexivity.
Defined.

(** C2, as amended.  After [setCachedQuery(q, r, s)] succeeded, and while the
    entry lives and the store answers, [getCachedQuery] on any non-empty
    string that trims to the same text as [q], with the same scope, returns an
    entry whose [result] is [r] and whose [query] is the untrimmed [q]. *)
Theorem trim_equivalent_round_trip (q q' : list Z) (r s : JsVal) (ttl d : Z)
    (w w1 : World) :
  setCachedQuery (VStr q) r s ttl w = (Ok (VBool true), w1) →
  q' ≠ [] → trim q' = trim q → 0 <= d <= ttl → healthy 2 w1 →
  ∃ entry w2,
    getCachedQuery (VStr q') s (advance d w1) = (Ok entry, w2) ∧
    opt_prop entry "result" = r ∧ opt_prop entry "query" = VStr q.
Proof.
  intros Hset Hq' Htrim Hd Hh.
  destruct (setCachedQuery_true_inv _ _ _ _ _ _ Hset)
    as (c & s0 & Eq & Hr & Hst & Hnow & _).
  destruct q' as [|c' s']; [done|]. inversion Eq; subst q.
  set (entry := Entry r (VStr (c :: s0)) (VStr (IsoDate.toISOString (w_now w)))
                  (default_empty s)) in *.
  destruct (getCachedQuery_hit c' s' s entry (w_now w + ttl) (advance d w1))
    as (w2 & Hget & _).
  - simpl. rewrite Hst. unfold identity_key. rewrite Htrim. apply lookup_insert_eq.
  - simpl. lia.
  - reflexivity.
  - by apply healthy_advance.
  - exists entry, w2. split; [exact Hget|]. split; reflexivity.
Qed.

Lemma trim_equivalent_round_trip_witness :
  ∃ entry w2,
    getCachedQuery (VStr (str "  Show balances by branch ")) VUndefined
      (advance 1000 (snd (setCachedQuery (VStr (str "Show balances by branch"))
                            sample_rows VUndefined TEN_MINUTES w0)))
    = (Ok entry, w2) ∧
    opt_prop entry "result" = sample_rows ∧
    opt_prop entry "query" = VStr (str "Show balances by branch").
Proof.
  apply (trim_equivalent_round_trip (str "Show balances by branch")
           (str "  Show balances by branch ") sample_rows VUndefined
           TEN_MINUTES 1000 w0).
  - vm_compute. reflexivity.
  - discriminate.
  - vm_compute. reflexivity.
  - unfold TEN_MINUTES. lia.
  - vm_compute. constructor.
Defined.

(** C2, as stated, fails: the write of the one-blank query succeeds, the
    empty string trims to the same text, and the lookup of the empty string
    is turned away by the guard. *)
Lemma empty_lookup_after_blank_write :
  str " " ≠ [] ∧
  fst (setCachedQuery (VStr (str " ")) sample_rows VUndefined TEN_MINUTES w0)
  = Ok (VBool true) ∧
  trim (str "") = trim (str " ") ∧
  fst (getCachedQuery (VStr (str "")) VUndefined
         (snd (setCachedQuery (VStr (str " ")) sample_rows VUndefined TEN_MINUTES w0)))
  = Ok VNull.
Proof.
  split; [discriminate|]. split; [vm_compute; reflexivity|].
  split; vm_compute; reflexivity.
Qed.



(* ===================================================================== *)
(** * Properties of the Pipeline Interceptor *)
(* ===================================================================== *)

Section Interceptor.

Lemma ops_extend_refl (w : World) : ops_extend w w.
Proof. by exists []. Qed.

Lemma ops_extend_trans (w1 w2 w3 : World) :
  ops_extend w1 w2 → ops_extend w2 w3 → ops_extend w1 w3.
Proof. intros [n1 E1] [n2 E2]. exists (n2 ++ n1). by rewrite E2, E1, app_assoc. Qed.

Lemma ops_extend_length (w w' : World) :
  ops_extend w w' → (length (w_ops w) <= length (w_ops w'))%nat.
Proof. intros [new E]. rewrite E, length_app. lia. Qed.

Lemma setCachedQuery_ops (queryText result userId : JsVal) (ttl : Z) (w : World) :
  ops_extend w (snd (setCachedQuery queryText result userId ttl w)).
Proof.
  destruct (usable queryText) eqn:U; [destruct (is_undefined result) eqn:R|].
  - rewrite setCachedQuery_guard; [apply ops_extend_refl|]. right. by destruct result.
  - destruct (usable_inv _ U) as (c & s & ->). rewrite setCachedQuery_run by done.
    destruct w as [st now fs ops con]; simpl.
    destruct fs as [|[e|] [|[e'|] fs]]; simpl;
      first [by eexists [_] | by eexists [_; _]].
  - rewrite setCachedQuery_guard; [apply ops_extend_refl|]. by left.
Qed.

(** A write that passes the guard reaches the store module. *)
Lemma setCachedQuery_ops_grow (queryText result userId : JsVal) (ttl : Z) (w : World) :
  usable queryText = true → truthy result = true →
  (length (w_ops w) < length (w_ops (snd (setCachedQuery queryText result userId ttl w))))%nat.
Proof.
  intros U T. destruct (usable_inv _ U) as (c & s & ->).
  rewrite setCachedQuery_run by (by destruct result).
  destruct w as [st now fs ops con]; simpl.
  destruct fs as [|[e|] [|[e'|] fs]]; simpl; lia.
Qed.

Lemma caching_json_run (originalJson : JsVal → M Cycle unit) (body : JsVal) (c : Cycle) :
  caching_json originalJson body c =
  if (res_statusCode (c_res c) =? 200) && truthy (opt_prop body "data")
  then originalJson body (mkCycle (c_req c) (c_res c) (write_back (c_req c) body (c_world c)))
  else originalJson body c.
Proof.
  unfold caching_json, bind, the_res, the_req, try_catch, in_world, ret, write_back.
  destruct ((res_statusCode (c_res c) =? 200) && truthy (opt_prop body "data")).
  - destruct (setCachedQuery_total (req_userQuery (c_req c)) (opt_prop body "data")
                (or_else (req_userId (c_req c)) (VStr [])) TEN_MINUTES (c_world c))
      as (b & w' & E).
    rewrite E. reflexivity.
  - by destruct c.
Qed.

(** Whatever [json] method is installed, a call emits the body with the
    current status and returns; the request and the rest of the response
    object stay as they are, and the store interactions only grow. *)
Lemma call_json_run (method : JsonMethod) (body : JsVal) (c : Cycle) :
  ∃ w', call_json method body c =
          (Ok tt, mkCycle (c_req c)
                    (mkRes (res_statusCode (c_res c)) (res_json (c_res c))
                       ((res_statusCode (c_res c), body) :: res_sent (c_res c)))
                    w') ∧
        ops_extend (c_world c) w' ∧
        ((res_statusCode (c_res c) =? 200) && truthy (opt_prop body "data") = false →
         w' = c_world c).
Proof.
  revert c. induction method as [|orig IH]; intros c; simpl.
  - exists (c_world c). split; [reflexivity|]. split; [apply ops_extend_refl | done].
  - rewrite caching_json_run.
    destruct ((res_statusCode (c_res c) =? 200) && truthy (opt_prop body "data")) eqn:Q.
    + destruct (IH (mkCycle (c_req c) (c_res c) (write_back (c_req c) body (c_world c))))
        as (w' & E & Hops & _).
      exists w'. split; [exact E|]. split; [|discriminate].
      eapply ops_extend_trans; [|exact Hops]. simpl. apply setCachedQuery_ops.
    + destruct (IH c) as (w' & E & Hops & Hsame).
      exists w'. split; [exact E|]. split; [exact Hops|]. intros _. by apply Hsame.
Qed.

(** The guard of the request phase. *)
Lemma queryCacheMiddleware_bypass (next : M Cycle unit) (c : Cycle) :
  usable (extract_userQuery (c_req c)) = false →
  queryCacheMiddleware next c = next c.
Proof.
  intros U. unfold queryCacheMiddleware, bind, the_req.
  by rewrite (not_usable_guard _ U).
Qed.


End Interceptor.





(** C5.  With the marker on the request, when the handler emits a body with a
    status that is not a success status, or a body without a [data] field,
    the response goes out and the world is left as it was: no store
    interaction takes place, so no write. *)
Theorem no_write_unless_qualifying (c : Cycle) (code : Z) (body : JsVal) :
  truthy (req_userQuery (c_req c)) = true →
  ¬ success_status code ∨ opt_prop body "data" = VUndefined →
  ∃ c', cacheResponseMiddleware (respond code body) c = (Ok tt, c') ∧
        c_world c' = c_world c ∧
        res_sent (c_res c') = (code, body) :: res_sent (c_res c).
Proof.
  intros Hm Hq.
  destruct (call_json_run (CachingJson (res_json (c_res c))) body
              (mkCycle (c_req c)
                 (mkRes code (CachingJson (res_json (c_res c))) (res_sent (c_res c)))
                 (c_world c)))
    as (w' & Hjson & _ & Hsame).
  rewrite Hsame in Hjson.
  - eexists. split; [|split].
    + unfold cacheResponseMiddleware, respond, bind, the_req, the_res, set_json,
        res_status, res_json_call.
      rewrite Hm. simpl. exact Hjson.
    + reflexivity.
    + reflexivity.
  - simpl. destruct Hq as [Hc | ->]; [|apply andb_false_r].
    apply andb_false_iff. left. apply Z.eqb_neq. intros ->.
    apply Hc. unfold success_status. lia.
Qed.

Lemma no_write_unless_qualifying_witness :
  ∃ c', cacheResponseMiddleware (respond 500 (VObj [(str "data", sample_rows)]))
          (mkCycle marked_request fresh_res w0) = (Ok tt, c') ∧
        c_world c' = w0 ∧
        res_sent (c_res c') = [(500, VObj [(str "data", sample_rows)])].
Proof.
  apply (no_write_unless_qualifying (mkCycle marked_request fresh_res w0) 500
           (VObj [(str "data", sample_rows)])).
  - reflexivity.
  - left. unfold success_status. lia.
Defined.

(** C10.  With a non-empty string as marker, the response phase reaches the
    store exactly when the status code is 200 and the [data] field of the body
    is truthy. *)
Theorem write_iff_200_and_truthy_data (c : Cycle) (code : Z) (body : JsVal) :
  usable (req_userQuery (c_req c)) = true →
  w_ops (c_world (snd (cacheResponseMiddleware (respond code body) c)))
    ≠ w_ops (c_world c)
  ↔ code = 200 ∧ truthy (opt_prop body "data") = true.
Proof.
  intros U.
  assert (Hm : truthy (req_userQuery (c_req c)) = true).
  { unfold usable in U. by apply andb_true_iff in U as [? _]. }
  set (c2 := mkCycle (c_req c)
               (mkRes code (CachingJson (res_json (c_res c))) (res_sent (c_res c)))
               (c_world c)).
  assert (Hrun : cacheResponseMiddleware (respond code body) c
                 = call_json (CachingJson (res_json (c_res c))) body c2).
  { unfold cacheResponseMiddleware, respond, bind, the_req, the_res, set_json,
      res_status, res_json_call. rewrite Hm. reflexivity. }
  rewrite Hrun.
  destruct ((code =? 200) && truthy (opt_prop body "data")) eqn:Q.
  - apply andb_true_iff in Q as [Hc Hd].
    split; [intros _; split; [by apply Z.eqb_eq | done]|]. intros _.
    set (c3 := mkCycle (c_req c) (c_res c2) (write_back (c_req c) body (c_world c))).
    assert (Hstep : call_json (CachingJson (res_json (c_res c))) body c2
                    = call_json (res_json (c_res c)) body c3).
    { change (call_json (CachingJson (res_json (c_res c))) body c2)
        with (caching_json (call_json (res_json (c_res c))) body c2).
      rewrite caching_json_run. subst c2 c3. simpl. by rewrite Hc, Hd. }
    rewrite Hstep.
    destruct (call_json_run (res_json (c_res c)) body c3) as (w' & E & Hops & _).
    rewrite E. simpl.
    apply ops_extend_length in Hops.
    pose proof (setCachedQuery_ops_grow (req_userQuery (c_req c)) (opt_prop body "data")
                  (or_else (req_userId (c_req c)) (VStr [])) TEN_MINUTES (c_world c) U Hd)
      as Hgrow.
    subst c3. simpl in Hops. unfold write_back in Hops. simpl in Hops.
    intros E'. rewrite E' in Hops. lia.
  - destruct (call_json_run (CachingJson (res_json (c_res c))) body c2)
      as (w' & E & _ & Hsame).
    rewrite E. simpl. rewrite (Hsame Q). simpl.
    split; [done|]. intros [-> Hd]. rewrite Hd in Q. discriminate.
Qed.

Lemma write_iff_200_and_truthy_data_witness :
  w_ops (c_world (snd (cacheResponseMiddleware
                         (respond 200 (VObj [(str "data", sample_rows)]))
                         (mkCycle marked_request fresh_res w0))))
    ≠ w_ops (c_world (mkCycle marked_request fresh_res w0))
  ↔ 200 = 200 ∧ truthy (opt_prop (VObj [(str "data", sample_rows)]) "data") = true.
Proof.
  apply (write_iff_200_and_truthy_data (mkCycle marked_request fresh_res w0) 200
           (VObj [(str "data", sample_rows)])).
  reflexivity.
Defined.

(* ===================================================================== *)
(** * Further properties: the format of the key *)
(* ===================================================================== *)

Section KeyFormat.

Import Sha256.










End KeyFormat.


(* ===================================================================== *)
(** * Further properties of the accessor *)
(* ===================================================================== *)

Section AccessorEffects.

(** The result of a lookup when the store answers. *)
Lemma getCachedQuery_healthy (c : Z) (s : list Z) (userId : JsVal) (w : World) :
  healthy 2 w →
  fst (getCachedQuery (VStr (c :: s)) userId w) =
  Ok (let result := Store.live (w_now w) (w_store w !! identity_key (c :: s) userId) in
      if truthy result then result else VNull).
Proof.
  intros Hh. rewrite getCachedQuery_run. unfold healthy in Hh.
  destruct (w_faults w) as [|[e|] [|[e'|] fs]]; simpl in *;
    try (match goal with |- context [truthy ?r] => destruct (truthy r) end; reflexivity);
    exfalso;
    repeat match goal with
           | H : Forall _ (_ :: _) |- _ => inversion H; clear H; subst
           end; congruence.
Qed.

Lemma healthy_after_write (queryText result userId : JsVal) (ttl : Z) (w w1 : World) :
  setCachedQuery queryText result userId ttl w = (Ok (VBool true), w1) → healthy 2 w.
Proof.
  intros H. destruct (usable queryText) eqn:U.
  - destruct (usable_inv _ U) as (c & s & ->).
    destruct (is_undefined result) eqn:R.
    + rewrite setCachedQuery_guard in H; [discriminate|]. right. by destruct result.
    + rewrite setCachedQuery_run in H by done. unfold healthy.
      destruct (w_faults w) as [|[e|] [|[e'|] fs]]; simpl in *;
        try discriminate; repeat constructor.
  - rewrite setCachedQuery_guard in H; [discriminate|]. by left.
Qed.

End AccessorEffects.

(** X2.  [getCachedQuery] only reads: whatever its arguments and whatever
    the store does, the entries of the store and the clock are as before, and
    the store interactions it adds are at most two, a lookup of the namespace
    and a get. *)
Theorem getCachedQuery_read_only (queryText userId : JsVal) (w : World) :
  w_store (snd (getCachedQuery queryText userId w)) = w_store w ∧
  w_now (snd (getCachedQuery queryText userId w)) = w_now w ∧
  ∃ new, w_ops (snd (getCachedQuery queryText userId w)) = new ++ w_ops w ∧
         Forall read_op new ∧ (length new <= 2)%nat.
Proof.
  destruct (usable queryText) eqn:U.
  - destruct (usable_inv _ U) as (c & s & ->). rewrite getCachedQuery_run.
    destruct (w_faults w) as [|[e|] [|[e'|] fs]]; simpl;
      try match goal with |- context [truthy ?r] => destruct (truthy r) end; simpl;
      (split; [reflexivity|]; split; [reflexivity|]);
      first [ eexists [_]; split; [reflexivity|]; split; [repeat constructor | simpl; lia]
            | eexists [_; _]; split; [reflexivity|]; split; [repeat constructor | simpl; lia] ].
  - rewrite getCachedQuery_guard by done. simpl.
    split; [reflexivity|]. split; [reflexivity|].
    exists []. split; [reflexivity|]. split; [constructor | simpl; lia].
Qed.

(** X3.  The boolean [setCachedQuery] returns tells what happened to the
    store: on [true] the query text was a non-empty string, the result was
    not undefined, and the store holds, under the key of the scope and the
    trimmed text, the entry made of the result, the untrimmed text, the time
    of the write and the scope, expiring [ttl] later; on [false] the entries
    of the store are as before. *)
Theorem setCachedQuery_reports_effect (queryText result userId : JsVal) (ttl : Z)
    (w : World) :
  ∃ (b : bool) (w' : World),
    setCachedQuery queryText result userId ttl w = (Ok (VBool b), w') ∧
    if b then
      ∃ q, queryText = VStr q ∧ q ≠ [] ∧ result ≠ VUndefined ∧
           w_store w' =
             <[identity_key q userId :=
                 (Entry result queryText (VStr (IsoDate.toISOString (w_now w)))
                    (default_empty userId), w_now w + ttl)]> (w_store w)
    else w_store w' = w_store w.
Proof.
  destruct (setCachedQuery_total queryText result userId ttl w) as (b & w' & E).
  exists b, w'. split; [exact E|]. destruct b.
  - destruct (setCachedQuery_true_inv _ _ _ _ _ _ E) as (c & s & -> & Hr & Hst & _).
    exists (c :: s). done.
  - destruct (usable queryText) eqn:U; [destruct (is_undefined result) eqn:R|].
    + rewrite setCachedQuery_guard in E; [by inversion E|]. right. by destruct result.
    + destruct (usable_inv _ U) as (c & s & ->).
      rewrite setCachedQuery_run in E by done.
      destruct (w_faults w) as [|[e|] [|[e'|] fs]]; simpl in *; by inversion E.
    + rewrite setCachedQuery_guard in E; [by inversion E|]. by left.
Qed.

(** X4.  [clearQueryCache] returns true exactly when it emptied the store,
    and then every lookup, of any query text and scope and at any later time,
    returns null; when it returns false the entries are all kept. *)
Theorem clearQueryCache_reports_effect (w : World) :
  ∃ (b : bool) (w' : World),
    clearQueryCache w = (Ok (VBool b), w') ∧
    if b then
      w_store w' = ∅ ∧
      ∀ queryText userId d,
        fst (getCachedQuery queryText userId (advance d w')) = Ok VNull
    else w_store w' = w_store w.
Proof.
  destruct (clearQueryCache_total w) as (b & w' & E).
  exists b, w'. split; [exact E|].
  rewrite clearQueryCache_run in E.
  destruct b.
  - assert (Hst : w_store w' = ∅).
    { destruct (w_faults w) as [|[e|] [|[e'|] fs]]; simpl in *; by inversion E. }
    split; [exact Hst|]. intros queryText userId d.
    destruct (usable queryText) eqn:U.
    + destruct (usable_inv _ U) as (c & s & ->).
      apply getCachedQuery_absent. simpl. rewrite Hst. apply lookup_empty.
    + by rewrite getCachedQuery_guard.
  - destruct (w_faults w) as [|[e|] [|[e'|] fs]]; simpl in *; by inversion E.
Qed.

(** X5.  A successful write touches one slot of the store: for every other
    identity (one whose key differs) the slot is as before, and a lookup of it
    while the store answers returns what it returned before the write. *)
Theorem write_leaves_other_identities (q q2 : list Z) (r s s2 : JsVal) (ttl : Z)
    (w w1 : World) :
  setCachedQuery (VStr q) r s ttl w = (Ok (VBool true), w1) →
  identity_key q2 s2 ≠ identity_key q s →
  w_store w1 !! identity_key q2 s2 = w_store w !! identity_key q2 s2 ∧
  (healthy 2 w1 →
   fst (getCachedQuery (VStr q2) s2 w1) = fst (getCachedQuery (VStr q2) s2 w)).
Proof.
  intros Hset Hne. pose proof (healthy_after_write _ _ _ _ _ _ Hset) as Hw.
  destruct (setCachedQuery_true_inv _ _ _ _ _ _ Hset)
    as (c & s0 & Eq & _ & Hst & Hnow & _).
  inversion Eq; subst q.
  assert (Hslot : w_store w1 !! identity_key q2 s2 = w_store w !! identity_key q2 s2).
  { rewrite Hst. by apply lookup_insert_ne. }
  split; [exact Hslot|]. intros Hw1.
  destruct q2 as [|c2 t2].
  - by rewrite !getCachedQuery_guard.
  - rewrite !getCachedQuery_healthy by done. by rewrite Hslot, Hnow.
Qed.

Lemma write_leaves_other_identities_witness :
  w_store w_cached !! identity_key (str "Show totals") (VStr (str "userA"))
  = w_store w0 !! identity_key (str "Show totals") (VStr (str "userA")) ∧
  fst (getCachedQuery (VStr (str "Show totals")) (VStr (str "userA")) w_cached)
  = fst (getCachedQuery (VStr (str "Show totals")) (VStr (str "userA")) w0).
Proof.
  destruct (write_leaves_other_identities (str "Show balances by branch")
              (str "Show totals") sample_rows (VStr (str "userA")) (VStr (str "userA"))
              TEN_MINUTES w0 w_cached) as [Hslot Hget].
  - vm_compute. reflexivity.
  - intros E. vm_compute in E. discriminate.
  - split; [exact Hslot|]. apply Hget. vm_compute. constructor.
Defined.

Section Diagnostics.




End Diagnostics.




(* ===================================================================== *)
(** * Further properties: white space around the query text *)
(* ===================================================================== *)

Section Trimming.

Lemma trimStart_blank_app (ws x : list Z) :
  blank ws → trimStart (ws ++ x) = trimStart x.
Proof.
  induction 1 as [|c ws Hc _ IH]; simpl; [reflexivity|]. by rewrite Hc.
Qed.

Lemma trimStart_blank (ws : list Z) : blank ws → trimStart ws = [].
Proof.
  intros H. rewrite <- (app_nil_r ws). by rewrite trimStart_blank_app.
Qed.

Lemma trimStart_app (q x : list Z) :
  trimStart (q ++ x) =
  match trimStart q with
  | [] => trimStart x
  | _ => trimStart q ++ x
  end.
Proof.
  induction q as [|c q IH]; simpl; [reflexivity|].
  destruct (is_white_space c); [exact IH | reflexivity].
Qed.

Lemma blank_rev (ws : list Z) : blank ws → blank (rev ws).
Proof. unfold blank. intros H. by apply Forall_rev. Qed.

Lemma trimEnd_app_blank (x ws : list Z) :
  blank ws → trimEnd (x ++ ws) = trimEnd x.
Proof.
  intros H. unfold trimEnd. rewrite rev_app_distr.
  by rewrite trimStart_blank_app by (by apply blank_rev).
Qed.

Lemma trim_padding (ws1 q ws2 : list Z) :
  blank ws1 → blank ws2 → trim (ws1 ++ q ++ ws2) = trim q.
Proof.
  intros H1 H2. unfold trim.
  rewrite trimStart_blank_app by done. rewrite trimStart_app.
  destruct (trimStart q) as [|c t] eqn:E.
  - by rewrite trimStart_blank.
  - by rewrite trimEnd_app_blank.
Qed.

(** Two non-empty query texts with the same key get the same answer. *)
Lemma getCachedQuery_by_key (q1 q2 : list Z) (userId : JsVal) (w : World) :
  q1 ≠ [] → q2 ≠ [] → identity_key q1 userId = identity_key q2 userId →
  fst (getCachedQuery (VStr q1) userId w) = fst (getCachedQuery (VStr q2) userId w).
Proof.
  intros H1 H2 E. destruct q1 as [|c1 t1]; [done|]. destruct q2 as [|c2 t2]; [done|].
  rewrite !getCachedQuery_run. rewrite E.
  destruct (w_faults w) as [|[e|] [|[e'|] fs]]; simpl; try reflexivity;
    match goal with |- context [truthy ?r] => destruct (truthy r) end; reflexivity.
Qed.

End Trimming.

(** X7.  White space around a query text does not count: a text padded with
    white space on either side has the key of the bare text, and for a
    non-empty text [getCachedQuery] answers the padded text as it answers the
    bare one. *)
Theorem padding_keeps_identity (ws1 q ws2 : list Z) (userId : JsVal) (w : World) :
  blank ws1 → blank ws2 →
  identity_key (ws1 ++ q ++ ws2) userId = identity_key q userId ∧
  (q ≠ [] →
   fst (getCachedQuery (VStr (ws1 ++ q ++ ws2)) userId w)
   = fst (getCachedQuery (VStr q) userId w)).
Proof.
  intros H1 H2.
  assert (E : identity_key (ws1 ++ q ++ ws2) userId = identity_key q userId).
  { unfold identity_key. by rewrite trim_padding. }
  split; [exact E|]. intros Hq. apply getCachedQuery_by_key; [|exact Hq|exact E].
  destruct ws1; [destruct q; [done|discriminate] | discriminate].
Qed.

Lemma padding_keeps_identity_witness :
  identity_key (str "  " ++ str "Show balances by branch" ++ [0x0A; 0xA0])
    (VStr (str "userA"))
  = identity_key (str "Show balances by branch") (VStr (str "userA")) ∧
  fst (getCachedQuery
         (VStr (str "  " ++ str "Show balances by branch" ++ [0x0A; 0xA0]))
         (VStr (str "userA")) w_cached)
  = fst (getCachedQuery (VStr (str "Show balances by branch")) (VStr (str "userA"))
           w_cached).
Proof.
  destruct (padding_keeps_identity (str "  ") (str "Show balances by branch")
              [0x0A; 0xA0] (VStr (str "userA")) w_cached) as [Hkey Hget].
  - repeat constructor.
  - repeat constructor.
  - split; [exact Hkey|]. apply Hget. discriminate.
Defined.

(* ===================================================================== *)
(** * Further properties of the interceptor and of the route *)
(* ===================================================================== *)

Section InterceptorRuns.

Lemma res_json_call_run (body : JsVal) (c : Cycle) :
  res_json_call body c = call_json (res_json (c_res c)) body c.
Proof. reflexivity. Qed.

Lemma respond_run (code : Z) (body : JsVal) (c : Cycle) :
  respond code body c =
  call_json (res_json (c_res c)) body
    (mkCycle (c_req c) (mkRes code (res_json (c_res c)) (res_sent (c_res c))) (c_world c)).
Proof. reflexivity. Qed.

Lemma cacheResponseMiddleware_run (next : M Cycle unit) (c : Cycle) :
  cacheResponseMiddleware next c =
  if truthy (req_userQuery (c_req c))
  then next (mkCycle (c_req c)
               (mkRes (res_statusCode (c_res c)) (CachingJson (res_json (c_res c)))
                  (res_sent (c_res c)))
               (c_world c))
  else next c.
Proof.
  unfold cacheResponseMiddleware, bind, the_req, the_res, set_json.
  destruct (truthy (req_userQuery (c_req c))); reflexivity.
Qed.




(** The request phase on a usable query text, after a lookup that found
    nothing to serve: the marker is attached and the downstream handler runs
    inside the [try] block. *)
Lemma queryCacheMiddleware_miss_run (next : M Cycle unit) (c : Cycle) (q : list Z)
    (v : JsVal) (w1 : World) :
  extract_userQuery (c_req c) = VStr q → q ≠ [] →
  getCachedQuery (VStr q) (extract_userId (c_req c)) (c_world c) = (Ok v, w1) →
  truthy v = false →
  queryCacheMiddleware next c =
  match next (with_marker c (VStr q) (extract_userId (c_req c)) w1) with
  | (Ok u, c2) => (Ok u, c2)
  | (Throw e, c2) => next (log_middleware_error e c2)
  end.
Proof.
  intros Hq Hne Hget Ht. destruct q as [|ch s]; [done|].
  unfold queryCacheMiddleware, bind, the_req, try_catch, in_world,
    set_userQuery, set_userId, with_marker, log_middleware_error.
  rewrite Hq. cbn [truthy is_string negb orb].
  rewrite Hget. rewrite Ht. cbn [c_req c_res c_world req_body req_query req_user
                                  req_userQuery req_userId].
  destruct (next _) as [[u|e] c2]; reflexivity.
Qed.

(** The request phase on a hit: the response is emitted through whatever
    [json] method is installed. *)
Lemma queryCacheMiddleware_hit_run (next : M Cycle unit) (c : Cycle) (q : list Z)
    (v : JsVal) (w1 : World) :
  extract_userQuery (c_req c) = VStr q → q ≠ [] →
  getCachedQuery (VStr q) (extract_userId (c_req c)) (c_world c) = (Ok v, w1) →
  truthy v = true →
  queryCacheMiddleware next c =
  call_json (res_json (c_res c)) (cached_response v)
    (mkCycle (c_req c) (mkRes 200 (res_json (c_res c)) (res_sent (c_res c)))
       (snd (console_log (str "Returning cached result for query: " ++ [34] ++
                          ToString (VStr q) ++ [34]) w1))).
Proof.
  intros Hq Hne Hget Ht.
  match goal with |- _ = call_json ?m ?b ?c1 => set (c1' := c1) end.
  destruct (call_json_run (res_json (c_res c)) (cached_response v) c1')
    as (w2 & Hjson & _).
  unfold queryCacheMiddleware, bind, the_req, try_catch, in_world, res_status,
    res_json_call, the_res.
  rewrite Hq. destruct q as [|ch s]; [done|].
  cbn [truthy is_string negb orb]. rewrite Hget. rewrite Ht.
  unfold console_log, bind.
  cbn [c_req c_res c_world res_json res_sent res_statusCode].
  change (call_json (res_json (c_res c)) (cached_response v) _)
    with (call_json (res_json (c_res c)) (cached_response v) c1').
  rewrite Hjson. reflexivity.
Qed.



End InterceptorRuns.

Section ResponsePhase.

Lemma cacheResponseMiddleware_respond (c : Cycle) (code : Z) (body : JsVal) :
  ∃ c', cacheResponseMiddleware (respond code body) c = (Ok tt, c') ∧
        res_sent (c_res c') = (code, body) :: res_sent (c_res c) ∧
        res_statusCode (c_res c') = code ∧
        c_req c' = c_req c.
Proof.
  rewrite cacheResponseMiddleware_run.
  destruct (truthy (req_userQuery (c_req c))); rewrite respond_run;
    match goal with
    | |- context [call_json ?m ?b ?c0] =>
        destruct (call_json_run m b c0) as (w' & E & _); rewrite E
    end; eexists; (split; [reflexivity|]); done.
Qed.

(** A lookup answers with a value other than null only when that value is
    stored, live, under the key of the identity. *)
Lemma getCachedQuery_truthy_inv (q : list Z) (userId v : JsVal) (w w1 : World) :
  getCachedQuery (VStr q) userId w = (Ok v, w1) → v ≠ VNull →
  ∃ expires, w_store w !! identity_key q userId = Some (v, expires) ∧
             w_now w <= expires ∧ truthy v = true ∧ w_store w1 = w_store w.
Proof.
  intros Hget Hv. destruct q as [|ch s].
  - rewrite getCachedQuery_guard in Hget by done. inversion Hget. congruence.
  - rewrite getCachedQuery_run in Hget. cbv zeta in Hget.
    destruct (truthy (Store.live (w_now w)
                        (w_store w !! identity_key (ch :: s) userId))) eqn:T.
    + assert (Hv' : Store.live (w_now w)
                      (w_store w !! identity_key (ch :: s) userId) = v ∧
                    w_store w1 = w_store w).
      { destruct (w_faults w) as [|[e|] [|[e'|] fs]];
          inversion Hget; subst; try congruence; done. }
      destruct Hv' as [Hl Hs]. rewrite Hl in T.
      unfold Store.live in Hl.
      destruct (w_store w !! identity_key (ch :: s) userId) as [[v' ex]|];
        [|subst v; discriminate].
      destruct (w_now w <=? ex) eqn:L; [|subst v; discriminate].
      subst v'. exists ex. repeat split; [lia | done | done].
    + destruct (w_faults w) as [|[e|] [|[e'|] fs]]; inversion Hget; congruence.
Qed.

End ResponsePhase.

(** X8.  The response phase never stands in the way of the response: for
    every cycle (marker or not, whatever [json] method is installed, whatever
    the store does), a handler that sets a status and emits a body gets
    exactly that status and body emitted, once, nothing is thrown, and the
    request is as before. *)
Theorem response_passes_through (c : Cycle) (code : Z) (body : JsVal) :
  ∃ c', cacheResponseMiddleware (respond code body) c = (Ok tt, c') ∧
        res_sent (c_res c') = (code, body) :: res_sent (c_res c) ∧
        res_statusCode (c_res c') = code ∧
        c_req c' = c_req c.
Proof. apply cacheResponseMiddleware_respond. Qed.

(** X9.  On a usable query text for which the store raises or holds no live
    truthy entry, the request phase attaches the marker (the untrimmed query
    text and the scope) and runs the downstream handler on that cycle, with
    nothing emitted by the interceptor.  A handler that throws is run a second
    time, after the error went to the console. *)
Theorem miss_attaches_marker (next : M Cycle unit) (c : Cycle) (q : list Z) :
  extract_userQuery (c_req c) = VStr q → q ≠ [] →
  store_raises (c_world c)
  ∨ truthy (Store.live (w_now (c_world c))
              (w_store (c_world c) !! identity_key q (extract_userId (c_req c)))) = false →
  queryCacheMiddleware next c =
  match next (with_marker c (VStr q) (extract_userId (c_req c))
                (snd (getCachedQuery (VStr q) (extract_userId (c_req c)) (c_world c))))
  with
  | (Ok u, c2) => (Ok u, c2)
  | (Throw e, c2) => next (log_middleware_error e c2)
  end.
Proof.
  intros Hq Hne Hmiss.
  destruct (getCachedQuery_total (VStr q) (extract_userId (c_req c)) (c_world c))
    as (v & w1 & Hget).
  rewrite Hget. simpl.
  apply (queryCacheMiddleware_miss_run next c q v w1 Hq Hne Hget).
  assert (Hv : fst (getCachedQuery (VStr q) (extract_userId (c_req c)) (c_world c))
               = Ok v) by (by rewrite Hget).
  destruct q as [|ch s]; [done|]. rewrite getCachedQuery_run in Hv.
  cbv zeta in Hv.
  destruct Hmiss as [(e & fs & [F | F]) | Hlive].
  - rewrite F in Hv. by inversion Hv.
  - rewrite F in Hv. by inversion Hv.
  - rewrite Hlive in Hv.
    destruct (w_faults (c_world c)) as [|[e|] [|[e'|] fs]]; by inversion Hv.
Qed.

Lemma miss_attaches_marker_witness :
  queryCacheMiddleware (throw store_error)
    (mkCycle (request sample_body VUndefined) fresh_res w0) =
  match throw store_error
          (with_marker (mkCycle (request sample_body VUndefined) fresh_res w0)
             (VStr (str "Show balances by branch"))
             (extract_userId (request sample_body VUndefined))
             (snd (getCachedQuery (VStr (str "Show balances by branch"))
                     (extract_userId (request sample_body VUndefined)) w0)))
  with
  | (Ok u, c2) => (Ok u, c2)
  | (Throw e, c2) => throw store_error (log_middleware_error e c2)
  end.
Proof.
  apply (miss_attaches_marker (throw store_error)
           (mkCycle (request sample_body VUndefined) fresh_res w0)
           (str "Show balances by branch")).
  - reflexivity.
  - discriminate.
  - right. vm_compute. reflexivity.
Defined.

(** X10.  [getCachedQuery] answers with a value other than null only when
    that value is stored under the key of the scope and the trimmed query
    text and has not expired; the value is then truthy and the entries of the
    store are as before.  It never serves an expired entry or the entry of
    another key. *)
Theorem lookup_serves_live_entries_only (q : list Z) (userId v : JsVal) (w w1 : World) :
  getCachedQuery (VStr q) userId w = (Ok v, w1) → v ≠ VNull →
  ∃ expires, w_store w !! identity_key q userId = Some (v, expires) ∧
             w_now w <= expires ∧ truthy v = true ∧ w_store w1 = w_store w.
Proof. apply getCachedQuery_truthy_inv. Qed.

Lemma lookup_serves_live_entries_only_witness :
  ∃ expires,
    w_store w_cached !! identity_key (str "Show balances by branch") (VStr (str "userA"))
    = Some (Entry sample_rows (VStr (str "Show balances by branch"))
              (VStr (str "2023-11-14T22:13:20.000Z")) (VStr (str "userA")), expires) ∧
    w_now w_cached <= expires ∧
    truthy (Entry sample_rows (VStr (str "Show balances by branch"))
              (VStr (str "2023-11-14T22:13:20.000Z")) (VStr (str "userA"))) = true ∧
    w_store (snd (getCachedQuery (VStr (str "Show balances by branch"))
                    (VStr (str "userA")) w_cached)) = w_store w_cached.
Proof.
  apply (lookup_serves_live_entries_only (str "Show balances by branch")
           (VStr (str "userA"))
           (Entry sample_rows (VStr (str "Show balances by branch"))
              (VStr (str "2023-11-14T22:13:20.000Z")) (VStr (str "userA")))
           w_cached).
  - vm_compute. reflexivity.
  - discriminate.
Defined.



Section Route.





(** A write whose store lookup raises leaves the entries as they are. *)
Lemma setCachedQuery_down (queryText result userId e : JsVal) (ttl : Z)
    (fs : list (option JsVal)) (w : World) :
  w_faults w = Some e :: fs →
  w_store (snd (setCachedQuery queryText result userId ttl w)) = w_store w.
Proof.
  intros F. destruct (usable queryText) eqn:U; [destruct (is_undefined result) eqn:R|].
  - rewrite setCachedQuery_guard; [done|]. right. by destruct result.
  - destruct (usable_inv _ U) as (c & s & ->).
    rewrite setCachedQuery_run by done. by rewrite F.
  - rewrite setCachedQuery_guard; [done|]. by left.
Qed.

(** The replaced [json] method over the method of the pipeline. *)
Lemma caching_native_run (body : JsVal) (c : Cycle) :
  call_json (CachingJson NativeJson) body c =
  (Ok tt,
   mkCycle (c_req c)
     (mkRes (res_statusCode (c_res c)) (res_json (c_res c))
        ((res_statusCode (c_res c), body) :: res_sent (c_res c)))
     (if (res_statusCode (c_res c) =? 200) && truthy (opt_prop body "data")
      then write_back (c_req c) body (c_world c)
      else c_world c)).
Proof.
  simpl. rewrite caching_json_run.
  destruct ((res_statusCode (c_res c) =? 200) && truthy (opt_prop body "data"));
    reflexivity.
Qed.

(** The route on a miss, with a fresh response object and a handler that
    responds. *)
Lemma route_respond_miss (c : Cycle) (q : list Z) (code : Z) (body v : JsVal)
    (w1 : World) :
  extract_userQuery (c_req c) = VStr q → q ≠ [] →
  res_json (c_res c) = NativeJson →
  getCachedQuery (VStr q) (extract_userId (c_req c)) (c_world c) = (Ok v, w1) →
  truthy v = false →
  let c1 := with_marker c (VStr q) (extract_userId (c_req c)) w1 in
  route (respond code body) c =
  (Ok tt,
   mkCycle (c_req c1)
     (mkRes code (CachingJson NativeJson) ((code, body) :: res_sent (c_res c)))
     (if (code =? 200) && truthy (opt_prop body "data")
      then write_back (c_req c1) body w1
      else w1)).
Proof.
  intros Hq Hne Hn Hget Ht c1. unfold route.
  rewrite (queryCacheMiddleware_miss_run _ c q v w1 Hq Hne Hget Ht).
  fold c1. rewrite cacheResponseMiddleware_run.
  assert (Hm : truthy (req_userQuery (c_req c1)) = true).
  { subst c1. simpl. by destruct q. }
  rewrite Hm. rewrite respond_run.
  cbn [c_req c_res c_world res_json res_sent res_statusCode].
  subst c1. unfold with_marker at 1 2 3.
  cbn [c_req c_res c_world res_json res_sent res_statusCode]. rewrite Hn.
  rewrite caching_native_run. reflexivity.
Qed.

End Route.

(** X12.  Around a handler that sets a status and emits a body, the route
    never throws and emits exactly one response, whatever the request, the
    response object and the store are: either the status and body of the
    handler, or status 200 with the cached-response body built from an entry
    that is stored, live, under the key of the identity of this request. *)
Theorem route_emits_one_response (c : Cycle) (code : Z) (body : JsVal) :
  ∃ c', route (respond code body) c = (Ok tt, c') ∧
    (res_sent (c_res c') = (code, body) :: res_sent (c_res c)
     ∨ ∃ q entry expires,
         extract_userQuery (c_req c) = VStr q ∧
         w_store (c_world c) !! identity_key q (extract_userId (c_req c))
         = Some (entry, expires) ∧
         w_now (c_world c) <= expires ∧
         res_sent (c_res c') = (200, cached_response entry) :: res_sent (c_res c)).
Proof.
  destruct (usable (extract_userQuery (c_req c))) eqn:U.
  - destruct (usable_inv _ U) as (ch & s & Hq).
    destruct (getCachedQuery_total (VStr (ch :: s)) (extract_userId (c_req c)) (c_world c))
      as (v & w1 & Hget).
    destruct (truthy v) eqn:Tv.
    + unfold route.
      rewrite (queryCacheMiddleware_hit_run _ c (ch :: s) v w1) by done.
      match goal with
      | |- context [call_json ?m ?b ?c0] =>
          destruct (call_json_run m b c0) as (w' & E & _); rewrite E
      end.
      eexists. split; [reflexivity|]. right.
      destruct (getCachedQuery_truthy_inv _ _ _ _ _ Hget) as (ex & Hst & Hnow & _).
      { intros ->. discriminate. }
      exists (ch :: s), v, ex. done.
    + unfold route.
      rewrite (queryCacheMiddleware_miss_run _ c (ch :: s) v w1) by done.
      destruct (cacheResponseMiddleware_respond
                  (with_marker c (VStr (ch :: s)) (extract_userId (c_req c)) w1) code body)
        as (c' & E & Hs & _).
      rewrite E. exists c'. split; [reflexivity|]. left. exact Hs.
  - unfold route. rewrite queryCacheMiddleware_bypass by done.
    destruct (cacheResponseMiddleware_respond c code body) as (c' & E & Hs & _).
    exists c'. split; [exact E|]. by left.
Qed.





(** X15.  An outage of the store does not show in the response: with a fresh
    response object, when the next two interactions with the store raise, the
    route emits exactly the status and body of the handler, throws nothing,
    and leaves the entries of the store as they were. *)
Theorem store_outage_is_transparent (c : Cycle) (code : Z) (body e1 e2 : JsVal)
    (fs : list (option JsVal)) :
  res_json (c_res c) = NativeJson →
  w_faults (c_world c) = Some e1 :: Some e2 :: fs →
  ∃ c', route (respond code body) c = (Ok tt, c') ∧
        res_sent (c_res c') = (code, body) :: res_sent (c_res c) ∧
        w_store (c_world c') = w_store (c_world c).
Proof.
  intros Hn Hf. destruct (usable (extract_userQuery (c_req c))) eqn:U.
  - destruct (usable_inv _ U) as (ch & s & Hq).
    pose proof (getCachedQuery_run ch s (extract_userId (c_req c)) (c_world c)) as Hget.
    cbv zeta in Hget. rewrite Hf in Hget.
    rewrite (route_respond_miss c (ch :: s) code body VNull _ Hq ltac:(done) Hn Hget eq_refl).
    eexists. split; [reflexivity|]. split; [reflexivity|].
    cbn [c_world].
    destruct ((code =? 200) && truthy (opt_prop body "data")); [|reflexivity].
    unfold write_back. cbn [w_store].
    by rewrite (setCachedQuery_down _ _ _ e2 _ fs).
  - unfold route. rewrite queryCacheMiddleware_bypass by done.
    rewrite cacheResponseMiddleware_run.
    destruct (truthy (req_userQuery (c_req c))); rewrite respond_run; rewrite Hn.
    + cbn [c_req c_res c_world res_json res_sent res_statusCode].
      rewrite caching_native_run.
      eexists. split; [reflexivity|]. split; [reflexivity|].
      cbn [c_world c_res c_req res_statusCode].
      destruct ((code =? 200) && truthy (opt_prop body "data")); [|reflexivity].
      unfold write_back. cbn [w_store].
      by rewrite (setCachedQuery_down _ _ _ e1 _ (Some e2 :: fs)).
    + eexists. split; [reflexivity|]. split; reflexivity.
Qed.

Lemma store_outage_is_transparent_witness :
  ∃ c', route (respond 200 (VObj [(str "data", VNum 7)]))
          (mkCycle (request sample_body VUndefined) fresh_res w_outage) = (Ok tt, c') ∧
        res_sent (c_res c') = (200, VObj [(str "data", VNum 7)]) :: res_sent fresh_res ∧
        w_store (c_world c') = w_store w_outage.
Proof.
  apply (store_outage_is_transparent
           (mkCycle (request sample_body VUndefined) fresh_res w_outage) 200
           (VObj [(str "data", VNum 7)]) store_error store_error []).
  - reflexivity.
  - reflexivity.
Defined.
